(** * A 25 + 5 clock: the timer state machine of [script.js]

    The React component [App] keeps its state in [useState] cells and
    drives the countdown with a browser interval.  The development
    below embeds the component state, the browser's table of live
    interval callbacks (with the variables each callback closed over),
    the audio element, and the handlers [timeFormat],
    [handleIncrementDecrement], [startTimer], [reset] and [playAudio].
    Numbers of the script are integers throughout and are modelled
    as [Z]. *)

From stdpp Require Import base option numbers list strings gmap fin_maps.
From Stdlib Require Import ZArith Lia Ascii.

Local Open Scope Z_scope.

(** ** Strings: [toString] and [padStart] *)

Module Js.

(** [Number.MAX_SAFE_INTEGER]: up to this magnitude the numbers of the
    script are exact integers, the division by 60 rounds to a number
    with the same integer part, and [toString] writes every digit. *)
Definition MAX_SAFE_INTEGER : Z := 2 ^ 53 - 1.

(** The decimal digit character of [n mod 10]. *)
Definition digit (n : N) : ascii :=
  ascii_of_N (48 + n mod 10)%N.

(** Most significant digits first; [fuel] bounds the number of
    digits that are produced. *)
Fixpoint digits (fuel : nat) (n : N) (acc : string) : string :=
  match fuel with
  | O => acc
  | S fuel' =>
      let acc' := String (digit n) acc in
      if (n / 10 =? 0)%N then acc' else digits fuel' (n / 10)%N acc'
  end.

(** [Number.prototype.toString] on an integer (radix 10); it is the
    text the script gets for integers up to [MAX_SAFE_INTEGER], far
    below the magnitude where the exponent notation starts. *)
Definition toString (z : Z) : string :=
  let n := Z.abs_N z in
  let body := digits (S (N.size_nat n)) n EmptyString in
  if z <? 0 then String "-"%char body else body.

(** [n] copies of the filler, as [String.prototype.repeat]. *)
Fixpoint repeat_string (n : nat) (filler : string) : string :=
  match n with
  | O => EmptyString
  | S n' => filler +:+ repeat_string n' filler
  end.

(** The first [n] characters of a string. *)
Fixpoint truncate (n : nat) (s : string) : string :=
  match n, s with
  | S n', String c s' => String c (truncate n' s')
  | _, _ => EmptyString
  end.

(** [String.prototype.padStart]: a string that already has the
    target length, or an empty filler, leaves the string as it is;
    otherwise the filler is repeated and cut to the missing length. *)
Definition padStart (targetLength : nat) (padString : string) (s : string)
  : string :=
  let len := String.length s in
  if (targetLength <=? len)%nat then s
  else match padString with
       | EmptyString => s
       | _ =>
           let fillLen := (targetLength - len)%nat in
           truncate fillLen (repeat_string fillLen padString) +:+ s
       end.

End Js.

(** ** [timeFormat] *)

(** [Math.floor (time / 60)] is the floor division and [time % 60] the
    remainder that takes the sign of the dividend.  The integer
    operations are those of the script for integers up to
    [Js.MAX_SAFE_INTEGER] in magnitude; beyond, the division of the
    script rounds and may differ. *)
Definition timeFormat (time : Z) : string :=
  let minutes := Js.padStart 2 "0" (Js.toString (time / 60)) in
  let seconds := Js.padStart 2 "0" (Js.toString (Z.rem time 60)) in
  minutes +:+ ":" +:+ seconds.

(** The format in the words of the specification: minutes are
    [floor (seconds / 60)], secs are [seconds mod 60], each of them
    written with at least two digits, joined by a colon. *)
Module FormatSpec.

Definition two_digits (n : Z) : string :=
  if n <? 10 then String "0"%char (Js.toString n) else Js.toString n.

Definition format (seconds : Z) : string :=
  two_digits (seconds `div` 60) +:+ ":" +:+ two_digits (seconds `mod` 60).

(** The five characters MM:SS, digit by digit, for minutes below 100. *)
Definition mm_ss (seconds : Z) : string :=
  let m := Z.to_N (seconds `div` 60) in
  let s := Z.to_N (seconds `mod` 60) in
  String (Js.digit (m / 10))
    (String (Js.digit m)
       (String ":" (String (Js.digit (s / 10)) (String (Js.digit s) "")))).

End FormatSpec.

(** ** The audio element *)

(** [plays] counts the calls of [play()]; it is a ghost counter that
    the element itself does not have. *)
Record Audio := mkAudio {
  currentTime : Z;
  paused : bool;
  plays : nat
}.

Definition audio_play (a : Audio) : Audio :=
  mkAudio (currentTime a) false (S (plays a)).

Definition audio_pause (a : Audio) : Audio :=
  mkAudio (currentTime a) true (plays a).

Definition audio_seek (t : Z) (a : Audio) : Audio :=
  mkAudio t (paused a) (plays a).

(** ** The interval callback *)

(** What the arrow function given to [setInterval] closed over: the
    constants [breakLength] and [sessionLength] of the render in which
    [startTimer] ran, and the local variable [breakOnVar], which the
    callback assigns. *)
Record Closure := mkClosure {
  cap_breakLength : Z;
  cap_sessionLength : Z;
  breakOnVar : bool
}.

(** The closure after a rollover. *)
Definition flipped (c : Closure) : Closure :=
  mkClosure (cap_breakLength c) (cap_sessionLength c) (negb (breakOnVar c)).

(** The captured length, in seconds, of the phase that a rollover
    enters. *)
Definition refill (c : Closure) : Z :=
  (if breakOnVar c then cap_sessionLength c else cap_breakLength c) * 60.

(** ** The component state *)

(** [timerOn] holds [false] ([None]) or the handle of the interval.
    [intervals] is the browser's table of live intervals and
    [nextHandle] the handle that the next [setInterval] returns. *)
Record State := mkState {
  displayTime : Z;
  breakLength : Z;
  sessionLength : Z;
  timerOn : option nat;
  breakOn : bool;
  darkMode : bool;
  audio : Audio;
  intervals : gmap nat Closure;
  nextHandle : nat
}.

Definition setDisplayTime (v : Z) (s : State) : State :=
  mkState v (breakLength s) (sessionLength s) (timerOn s) (breakOn s)
          (darkMode s) (audio s) (intervals s) (nextHandle s).

Definition setBreakLength (v : Z) (s : State) : State :=
  mkState (displayTime s) v (sessionLength s) (timerOn s) (breakOn s)
          (darkMode s) (audio s) (intervals s) (nextHandle s).

Definition setSessionLength (v : Z) (s : State) : State :=
  mkState (displayTime s) (breakLength s) v (timerOn s) (breakOn s)
          (darkMode s) (audio s) (intervals s) (nextHandle s).

Definition setTimerOn (v : option nat) (s : State) : State :=
  mkState (displayTime s) (breakLength s) (sessionLength s) v (breakOn s)
          (darkMode s) (audio s) (intervals s) (nextHandle s).

Definition setBreakOn (v : bool) (s : State) : State :=
  mkState (displayTime s) (breakLength s) (sessionLength s) (timerOn s) v
          (darkMode s) (audio s) (intervals s) (nextHandle s).

Definition setDarkMode (v : bool) (s : State) : State :=
  mkState (displayTime s) (breakLength s) (sessionLength s) (timerOn s)
          (breakOn s) v (audio s) (intervals s) (nextHandle s).

Definition with_audio (f : Audio → Audio) (s : State) : State :=
  mkState (displayTime s) (breakLength s) (sessionLength s) (timerOn s)
          (breakOn s) (darkMode s) (f (audio s)) (intervals s) (nextHandle s).

Definition with_intervals (f : gmap nat Closure → gmap nat Closure)
    (s : State) : State :=
  mkState (displayTime s) (breakLength s) (sessionLength s) (timerOn s)
          (breakOn s) (darkMode s) (audio s) (f (intervals s)) (nextHandle s).

(** The first render: the arguments of the [useState] calls, a paused
    audio element and no interval. *)
Definition initial : State :=
  mkState (25 * 60) 5 25 None false false (mkAudio 0 true 0) ∅ 1%nat.

(** ** Browser timers *)

(** Truth value of [timerOn]: [false] and the number 0 are falsy. *)
Definition truthy (t : option nat) : bool :=
  match t with
  | Some h => negb (h =? 0)%nat
  | None => false
  end.

(** The handle that [clearInterval] receives when it is given
    [timerOn]: [false] converts to 0. *)
Definition handle_of_timerOn (t : option nat) : nat :=
  match t with
  | Some h => h
  | None => 0%nat
  end.

(** The handle that [clearInterval] receives when it is given a
    boolean. *)
Definition handle_of_bool (b : bool) : nat :=
  if b then 1%nat else 0%nat.

Definition clearInterval (h : nat) (s : State) : State :=
  with_intervals (delete h) s.

Definition setInterval (c : Closure) (s : State) : nat * State :=
  let h := nextHandle s in
  (h, mkState (displayTime s) (breakLength s) (sessionLength s) (timerOn s)
              (breakOn s) (darkMode s) (audio s) (<[h := c]> (intervals s))
              (S h)).

(** ** Handlers *)

Definition toggleDarkMode (s : State) : State :=
  setDarkMode (negb (darkMode s)) s.

Definition playAudio (s : State) : State :=
  with_audio (fun a => audio_play (audio_seek 0 a)) s.

(** The handler reads [breakLength] and [sessionLength] of the render
    in which the click happens; every click is followed by a render, so
    these are the current values, and the updater [prev => prev + amount]
    receives the same number. *)
Definition handleIncrementDecrement (type : string) (amount : Z) (s : State)
  : State :=
  if String.eqb type "break" then
    if (breakLength s <=? 1) || (breakLength s >=? 60) then s
    else setBreakLength (breakLength s + amount) s
  else if String.eqb type "session" then
    if (sessionLength s <=? 1) || (sessionLength s >=? 60) then s
    else setDisplayTime ((sessionLength s + amount) * 60)
           (setSessionLength (sessionLength s + amount) s)
  else s.

(** One run of the interval callback with handle [h]: the updater
    given to [setDisplayTime] receives the current [displayTime].  A
    handle that is not in the table has no callback to run. *)
Definition tick (h : nat) (s : State) : option State :=
  match intervals s !! h with
  | None => None
  | Some c =>
      let prev := displayTime s in
      if (prev =? 0) && negb (breakOnVar c) then
        let s1 := playAudio s in
        let c' := mkClosure (cap_breakLength c) (cap_sessionLength c) true in
        let s2 := with_intervals (insert h c') s1 in
        let s3 := setBreakOn true s2 in
        Some (setDisplayTime (cap_breakLength c * 60) s3)
      else if (prev =? 0) && breakOnVar c then
        let s1 := playAudio s in
        let c' := mkClosure (cap_breakLength c) (cap_sessionLength c) false in
        let s2 := with_intervals (insert h c') s1 in
        let s3 := setBreakOn false s2 in
        Some (setDisplayTime (cap_sessionLength c * 60) s3)
      else Some (setDisplayTime (prev - 1) s)
  end.

(** The callback is created here, so it closes over the lengths and
    over [breakOnVar] as they are at the click. *)
Definition startTimer (s : State) : State :=
  let breakOnVar := breakOn s in
  if truthy (timerOn s) then
    setTimerOn None (clearInterval (handle_of_timerOn (timerOn s)) s)
  else if negb (truthy (timerOn s)) then
    let '(interval, s') :=
      setInterval (mkClosure (breakLength s) (sessionLength s) breakOnVar) s in
    setTimerOn (Some interval) s'
  else s.

(** [clearInterval] is called on [timerOn] and then on the boolean
    [breakOn]. *)
Definition reset (s : State) : State :=
  let s1 := setBreakLength 5 s in
  let s2 := setSessionLength 25 s1 in
  let s3 := setDisplayTime (25 * 60) s2 in
  let s4 := setTimerOn None s3 in
  let s5 := setBreakOn false s4 in
  let s6 := clearInterval (handle_of_timerOn (timerOn s)) s5 in
  let s7 := clearInterval (handle_of_bool (breakOn s)) s6 in
  let s8 := with_audio audio_pause s7 in
  with_audio (audio_seek 0) s8.


(** ** Events *)

(** What can happen to the mounted component: a call of
    [handleIncrementDecrement], a click on [start_stop], a click on
    [reset], the browser running the interval callback with handle
    [h], and a click on the dark mode button. *)
Inductive Event :=
| Adjust (type : string) (amount : Z)
| StartStop
| Reset
| Tick (h : nat)
| ToggleDarkMode.

Definition exec (e : Event) (s : State) : option State :=
  match e with
  | Adjust type amount => Some (handleIncrementDecrement type amount s)
  | StartStop => Some (startTimer s)
  | Reset => Some (reset s)
  | Tick h => tick h s
  | ToggleDarkMode => Some (toggleDarkMode s)
  end.

Fixpoint run (evs : list Event) (s : State) : option State :=
  match evs with
  | [] => Some s
  | e :: evs' =>
      match exec e s with
      | Some s' => run evs' s'
      | None => None
      end
  end.

(** [n] consecutive runs of the callback with handle [h]. *)
Fixpoint ticks (n : nat) (h : nat) (s : State) : option State :=
  match n with
  | O => Some s
  | S n' =>
      match tick h s with
      | Some s' => ticks n' h s'
      | None => None
      end
  end.

(** The four length buttons of the page call the handler with
    ["break"] or ["session"] and with 1 or -1. *)
Definition button_event (e : Event) : bool :=
  match e with
  | Adjust type amount =>
      (String.eqb type "break" || String.eqb type "session")
      && ((amount =? 1) || (amount =? -1))
  | _ => true
  end.

Definition is_adjust (e : Event) : bool :=
  match e with Adjust _ _ => true | _ => false end.

Definition is_tick (e : Event) : bool :=
  match e with Tick _ => true | _ => false end.

Definition is_start_stop (e : Event) : bool :=
  match e with StartStop => true | _ => false end.

(** The states of the page: those that the buttons and the interval
    produce from the first render. *)
Definition reachable (s : State) : Prop :=
  ∃ evs, forallb button_event evs = true ∧ run evs initial = Some s.

(** The length that [handleIncrementDecrement] targets. *)
Definition field (type : string) (s : State) : Z :=
  if String.eqb type "break" then breakLength s else sessionLength s.

(** ** Invariant of the reachable states *)

Definition in_bounds (v : Z) : Prop := 1 ≤ v ≤ 60.

(** [timerOn] names the only live interval, and the callback's
    [breakOnVar] agrees with [breakOn]. *)
Definition timer_consistent (s : State) : Prop :=
  match timerOn s with
  | None => intervals s = ∅
  | Some h =>
      h ≠ 0%nat ∧
      ∃ c, intervals s = {[h := c]} ∧ breakOnVar c = breakOn s ∧
           in_bounds (cap_breakLength c) ∧ in_bounds (cap_sessionLength c)
  end.

Record Inv (s : State) : Prop := mkInv {
  inv_handle : nextHandle s ≠ 0%nat;
  inv_timer : timer_consistent s;
  inv_time : 0 ≤ displayTime s;
  inv_break : in_bounds (breakLength s);
  inv_session : in_bounds (sessionLength s)
}.

(** The interval [h] is the only one, it closed over the lengths [b]
    and [l], and its [breakOnVar] agrees with [breakOn]. *)
Definition captured (h : nat) (b l : Z) (s : State) : Prop :=
  ∃ c, intervals s = {[h := c]} ∧ cap_breakLength c = b ∧
       cap_sessionLength c = l ∧ breakOnVar c = breakOn s.

(** ** What the page shows *)

Definition getTimerClassName (s : State) : string :=
  if displayTime s <? 60 then "timedisplay-flash" else "".

(** The parts of the returned markup that depend on the state: the
    two lengths, the label, class and text of the time display, and
    the icons of the start and dark mode buttons. *)
Record View := mkView {
  break_length : Z;
  session_length : Z;
  timer_label : string;
  time_left_class : string;
  time_left : string;
  start_stop_icon : string;
  dark_mode_icon : string
}.

Definition render (s : State) : View :=
  mkView (breakLength s) (sessionLength s)
         (if breakOn s then "Break" else "Session")
         ("timedisplay " +:+ getTimerClassName s +:+ " ")
         (timeFormat (displayTime s))
         (if truthy (timerOn s) then "fa-solid fa-pause" else "fa-solid fa-play")
         (if darkMode s then "fa-solid fa-sun" else "fa-solid fa-moon").

(** ** Dark mode and the document *)

(** The effect with dependency [darkMode]: it adds the class to, or
    removes it from, the class list of the document element. *)
Definition darkModeEffect (dark : bool) (classes : gset string) : gset string :=
  if dark then classes ∪ {["dark-mode"]} else classes ∖ {["dark-mode"]}.

(** The component together with the class list of the document. *)
Record Page := mkPage {
  component : State;
  classList : gset string
}.

(** The effect runs after the first render. *)
Definition mount (classes : gset string) : Page :=
  mkPage initial (darkModeEffect (darkMode initial) classes).

(** After an event the component renders again, and the effect runs
    when [darkMode] differs from the previous render. *)
Definition page_exec (e : Event) (p : Page) : option Page :=
  match exec e (component p) with
  | None => None
  | Some s' =>
      Some (mkPage s'
              (if Bool.eqb (darkMode s') (darkMode (component p))
               then classList p
               else darkModeEffect (darkMode s') (classList p)))
  end.

Fixpoint page_run (evs : list Event) (p : Page) : option Page :=
  match evs with
  | [] => Some p
  | e :: evs' =>
      match page_exec e p with
      | Some p' => page_run evs' p'
      | None => None
      end
  end.

Definition is_reset (e : Event) : bool :=
  match e with Reset => true | _ => false end.

Definition is_toggle (e : Event) : bool :=
  match e with ToggleDarkMode => true | _ => false end.

(** The number of clicks on the dark mode button in a sequence. *)
Definition toggles (evs : list Event) : nat :=
  length (filter (λ e, is_toggle e = true) evs).

(** * Properties *)

(** ** [handleIncrementDecrement] *)

Section Adjust.

Variables (amount : Z) (s : State).

Lemma adjust_break_eq :
  handleIncrementDecrement "break" amount s =
  if (breakLength s <=? 1) || (breakLength s >=? 60) then s
  else setBreakLength (breakLength s + amount) s.
Proof. reflexivity. Qed.

Lemma adjust_session_eq :
  handleIncrementDecrement "session" amount s =
  if (sessionLength s <=? 1) || (sessionLength s >=? 60) then s
  else setDisplayTime ((sessionLength s + amount) * 60)
         (setSessionLength (sessionLength s + amount) s).
Proof. reflexivity. Qed.

Lemma guard_rejects (v : Z) :
  v ≤ 1 ∨ 60 ≤ v → (v <=? 1) || (v >=? 60) = true.
Proof. intros [H | H]; apply orb_true_iff; [left | right]; lia. Qed.

Lemma guard_accepts (v : Z) :
  1 < v < 60 → (v <=? 1) || (v >=? 60) = false.
Proof. intros H. apply orb_false_iff. lia. Qed.

Lemma adjust_rejected (type : string) :
  type = "break" ∨ type = "session" →
  field type s ≤ 1 ∨ 60 ≤ field type s →
  handleIncrementDecrement type amount s = s.
Proof.
  intros [-> | ->] H; cbn [field String.eqb] in H.
  - rewrite adjust_break_eq. now rewrite guard_rejects.
  - rewrite adjust_session_eq. now rewrite guard_rejects.
Qed.

Lemma adjust_accepted (type : string) :
  type = "break" ∨ type = "session" →
  1 < field type s < 60 →
  field type (handleIncrementDecrement type amount s) = field type s + amount.
Proof.
  intros [-> | ->] H; cbn [field String.eqb] in H.
  - rewrite adjust_break_eq, guard_accepts by exact H. reflexivity.
  - rewrite adjust_session_eq, guard_accepts by exact H. reflexivity.
Qed.

End Adjust.

(** C4.  The guard of [handleIncrementDecrement] reads the length as it
    is before the adjustment.  For ["break"] and for ["session"], and
    for every amount (so for 1 and for -1): when the targeted length is
    at most 1 or at least 60 the call returns the state unchanged, and
    there is no other outcome than a state; otherwise the targeted
    length becomes the old length plus the amount.  In particular an
    increment at 60 or above and a decrement at 1 or below change
    nothing. *)
Theorem adjust_guard_on_old_value (type : string) (amount : Z) (s : State) :
  type = "break" ∨ type = "session" →
  (field type s ≤ 1 ∨ 60 ≤ field type s →
     handleIncrementDecrement type amount s = s) ∧
  (1 < field type s < 60 →
     field type (handleIncrementDecrement type amount s)
     = field type s + amount) ∧
  (60 ≤ field type s → handleIncrementDecrement type 1 s = s) ∧
  (field type s ≤ 1 → handleIncrementDecrement type (-1) s = s).
Proof.
  intros Ht. repeat split.
  - now apply adjust_rejected.
  - now apply adjust_accepted.
  - intros H. apply adjust_rejected; [exact Ht | now right].
  - intros H. apply adjust_rejected; [exact Ht | now left].
Qed.

Lemma adjust_guard_on_old_value_witness :
  handleIncrementDecrement "session" 1 (setSessionLength 60 initial)
  = setSessionLength 60 initial
  ∧ field "break" (handleIncrementDecrement "break" (-1) initial) = 5 + -1.
Proof.
  split.
  - destruct (adjust_guard_on_old_value "session" 1
                (setSessionLength 60 initial) (or_intror eq_refl))
      as (Hrej & _).
    apply Hrej. right. cbn. lia.
  - destruct (adjust_guard_on_old_value "break" (-1) initial
                (or_introl eq_refl)) as (_ & Hacc & _).
    apply Hacc. cbn. lia.
Defined.

(** C3 as stated fails at 59: the increment reaches 60, and the guard
    then rejects the decrement. *)
Lemma adjust_round_trip_fails_at_59 :
  ¬ (∀ (v : Z) (type : string) (s : State),
       2 ≤ v ≤ 59 → type = "break" ∨ type = "session" →
       field type s = v →
       field type (handleIncrementDecrement type (-1)
                     (handleIncrementDecrement type 1 s)) = v).
Proof.
  intros H.
  assert (E := H 59 "break" (setBreakLength 59 initial)
                 ltac:(lia) (or_introl eq_refl) eq_refl).
  vm_compute in E. discriminate E.
Qed.

(** C3, amended.  For every length [v] from 2 to 58, an increment
    followed by a decrement of the same length (break or session)
    gives [v] back; from 59 the pair of calls ends at 60. *)
Theorem adjust_round_trip (v : Z) (type : string) (s : State) :
  type = "break" ∨ type = "session" →
  field type s = v →
  (2 ≤ v ≤ 58 →
     field type (handleIncrementDecrement type (-1)
                   (handleIncrementDecrement type 1 s)) = v) ∧
  (v = 59 →
     field type (handleIncrementDecrement type (-1)
                   (handleIncrementDecrement type 1 s)) = 60).
Proof.
  intros Ht Hv. split; intros Hr.
  - rewrite adjust_accepted; [| exact Ht |].
    + rewrite adjust_accepted; [lia | exact Ht | lia].
    + rewrite adjust_accepted; [lia | exact Ht | lia].
  - rewrite adjust_rejected; [| exact Ht |].
    + rewrite adjust_accepted; [lia | exact Ht | lia].
    + rewrite adjust_accepted; [lia | exact Ht | lia].
Qed.

Lemma adjust_round_trip_witness :
  field "session" (handleIncrementDecrement "session" (-1)
                     (handleIncrementDecrement "session" 1 initial)) = 25.
Proof.
  destruct (adjust_round_trip 25 "session" initial
              (or_intror eq_refl) eq_refl) as (Hrt & _).
  apply Hrt. lia.
Defined.

(** C5.  Whenever the guard lets a session adjustment through, the
    call writes (old session length + amount) * 60 into [displayTime],
    whatever [timerOn] and [breakOn] hold, and leaves the interval
    table alone; a break adjustment, let through or not, never changes
    [displayTime]. *)
Theorem adjust_display_time (amount : Z) (s : State) :
  (1 < sessionLength s < 60 →
     displayTime (handleIncrementDecrement "session" amount s)
     = (sessionLength s + amount) * 60
     ∧ intervals (handleIncrementDecrement "session" amount s) = intervals s
     ∧ timerOn (handleIncrementDecrement "session" amount s) = timerOn s
     ∧ breakOn (handleIncrementDecrement "session" amount s) = breakOn s) ∧
  displayTime (handleIncrementDecrement "break" amount s) = displayTime s.
Proof.
  split.
  - intros H. rewrite adjust_session_eq, guard_accepts by exact H.
    repeat split.
  - rewrite adjust_break_eq.
    destruct ((breakLength s <=? 1) || (breakLength s >=? 60)); reflexivity.
Qed.

Lemma adjust_display_time_witness :
  displayTime (handleIncrementDecrement "session" 1
                 (setBreakOn true (startTimer initial))) = (25 + 1) * 60.
Proof.
  destruct (adjust_display_time 1 (setBreakOn true (startTimer initial)))
    as (Hsession & _).
  apply Hsession. cbn. lia.
Defined.

(** ** The interval callback *)

Section Tick.

Variables (h : nat) (s : State) (c : Closure).
Hypothesis Hlive : intervals s !! h = Some c.

Lemma tick_decrement :
  displayTime s ≠ 0 →
  tick h s = Some (setDisplayTime (displayTime s - 1) s).
Proof.
  intros Hne. unfold tick. rewrite Hlive.
  destruct (Z.eqb_spec (displayTime s) 0) as [E | _]; [contradiction |].
  reflexivity.
Qed.

Lemma tick_rollover :
  displayTime s = 0 →
  tick h s =
  Some (setDisplayTime (refill c)
          (setBreakOn (negb (breakOnVar c))
             (with_intervals (insert h (flipped c)) (playAudio s)))).
Proof.
  intros Hz. unfold tick, refill, flipped. rewrite Hlive, Hz.
  destruct (breakOnVar c); reflexivity.
Qed.

End Tick.

Lemma tick_live (h : nat) (s s' : State) :
  tick h s = Some s' → ∃ c, intervals s !! h = Some c.
Proof.
  unfold tick. destruct (intervals s !! h) as [c |]; [eauto | discriminate].
Qed.

Lemma tick_dead (h : nat) (s : State) :
  intervals s !! h = None → tick h s = None.
Proof. intros H. unfold tick. now rewrite H. Qed.

(** ** The invariant holds in every reachable state *)

Lemma Inv_initial : Inv initial.
Proof.
  split; cbn; try (unfold in_bounds; lia). reflexivity.
Qed.

Lemma button_adjust (type : string) (amount : Z) :
  button_event (Adjust type amount) = true →
  (type = "break" ∨ type = "session") ∧ (amount = 1 ∨ amount = -1).
Proof.
  cbn [button_event]. intros H.
  apply andb_true_iff in H as [Ht Ha].
  apply orb_true_iff in Ht. apply orb_true_iff in Ha.
  split.
  - destruct Ht as [Ht | Ht]; apply String.eqb_eq in Ht; auto.
  - destruct Ha as [Ha | Ha]; apply Z.eqb_eq in Ha; auto.
Qed.

Lemma Inv_adjust (type : string) (amount : Z) (s : State) :
  button_event (Adjust type amount) = true →
  Inv s → Inv (handleIncrementDecrement type amount s).
Proof.
  intros Hb [Hh Ht Hd Hbl Hsl].
  apply button_adjust in Hb as [[-> | ->] Ha].
  - rewrite adjust_break_eq.
    destruct (Z.leb_spec (breakLength s) 1), (Z.geb_spec (breakLength s) 60);
      cbn [orb]; try (now split).
    split; cbn; auto. unfold in_bounds in *. lia.
  - rewrite adjust_session_eq.
    destruct (Z.leb_spec (sessionLength s) 1), (Z.geb_spec (sessionLength s) 60);
      cbn [orb]; try (now split).
    split; cbn; auto; unfold in_bounds in *; lia.
Qed.

Lemma Inv_startTimer (s : State) : Inv s → Inv (startTimer s).
Proof.
  intros [Hh Ht Hd Hbl Hsl]. unfold startTimer, timer_consistent in *.
  destruct (timerOn s) as [h |] eqn:Eh; cbn [truthy handle_of_timerOn].
  - destruct Ht as (Hne & c & Hc & _).
    apply Nat.eqb_neq in Hne as ->. cbn [negb].
    split; cbn; auto.
    unfold timer_consistent. cbn. rewrite Hc. apply delete_singleton_eq.
  - cbn. split; cbn; auto.
    unfold timer_consistent. cbn. split; [exact Hh |].
    eexists. rewrite Ht. repeat split; try apply Hbl; apply Hsl.
Qed.

Lemma Inv_reset (s : State) : Inv s → Inv (reset s).
Proof.
  intros [Hh Ht Hd Hbl Hsl].
  split; cbn; auto; try (unfold in_bounds; lia).
  unfold timer_consistent in *. cbn.
  destruct (timerOn s) as [h |]; cbn.
  - destruct Ht as (_ & c & -> & _).
    now rewrite delete_singleton_eq, delete_empty.
  - rewrite Ht. now rewrite !delete_empty.
Qed.

Lemma Inv_tick (h : nat) (s s' : State) : Inv s → tick h s = Some s' → Inv s'.
Proof.
  intros [Hh Ht Hd Hbl Hsl] Hs'.
  destruct (tick_live _ _ _ Hs') as [c Hc].
  unfold timer_consistent in Ht.
  destruct (timerOn s) as [k |] eqn:Ek;
    [| rewrite Ht, lookup_empty in Hc; discriminate].
  destruct Ht as (Hk & c0 & Hi & Hbv & Hcb & Hcs).
  rewrite Hi in Hc. apply lookup_singleton_Some in Hc as [<- <-].
  assert (Hlive : intervals s !! k = Some c0)
    by (rewrite Hi; apply lookup_singleton_eq).
  destruct (Z.eq_dec (displayTime s) 0) as [Hz | Hnz].
  - rewrite (tick_rollover k s c0 Hlive Hz) in Hs'.
    injection Hs' as <-.
    split; cbn; auto.
    + unfold timer_consistent. cbn. rewrite Ek. split; [exact Hk |].
      exists (flipped c0). rewrite Hi, insert_singleton_eq.
      split; [reflexivity |]. split; [reflexivity |]. split; [exact Hcb | exact Hcs].
    + unfold refill, in_bounds in *. destruct (breakOnVar c0); lia.
  - rewrite (tick_decrement k s c0 Hlive Hnz) in Hs'.
    injection Hs' as <-.
    split; cbn; auto; [| lia].
    unfold timer_consistent. cbn. rewrite Ek. eauto 10.
Qed.

Lemma Inv_exec (e : Event) (s s' : State) :
  button_event e = true → Inv s → exec e s = Some s' → Inv s'.
Proof.
  intros Hb HI He. destruct e; cbn [exec] in He.
  - injection He as <-. now apply Inv_adjust.
  - injection He as <-. now apply Inv_startTimer.
  - injection He as <-. now apply Inv_reset.
  - now apply (Inv_tick h s).
  - injection He as <-. destruct HI. now split.
Qed.

Lemma Inv_run (evs : list Event) (s s' : State) :
  forallb button_event evs = true → Inv s → run evs s = Some s' → Inv s'.
Proof.
  revert s. induction evs as [| e evs IH]; intros s Hb HI Hr; cbn in *.
  - now injection Hr as <-.
  - apply andb_true_iff in Hb as [He Hevs].
    destruct (exec e s) as [s1 |] eqn:E1; [| discriminate].
    apply (IH s1); [exact Hevs | eapply Inv_exec; eassumption | exact Hr].
Qed.

Lemma reachable_Inv (s : State) : reachable s → Inv s.
Proof.
  intros (evs & Hb & Hr). eapply Inv_run; eauto using Inv_initial.
Qed.

Lemma reachable_live (h : nat) (s : State) (c : Closure) :
  reachable s → intervals s !! h = Some c →
  timerOn s = Some h ∧ intervals s = {[h := c]} ∧
  breakOnVar c = breakOn s ∧
  in_bounds (cap_breakLength c) ∧ in_bounds (cap_sessionLength c).
Proof.
  intros Hr Hc. destruct (reachable_Inv s Hr) as [_ Ht _ _ _].
  unfold timer_consistent in Ht.
  destruct (timerOn s) as [k |];
    [| rewrite Ht, lookup_empty in Hc; discriminate].
  destruct Ht as (_ & c0 & Hi & Hrest).
  rewrite Hi in Hc. apply lookup_singleton_Some in Hc as [<- <-].
  auto.
Qed.

(** C1.  In a reachable state in which the callback of the interval
    [h] runs: when [displayTime] is positive the run subtracts 1 from it
    and leaves every other part of the state as it was; when
    [displayTime] is 0 the run plays the audio from position 0, negates
    [breakOn], and writes into [displayTime] the captured length of the
    phase it enters, which is at least 60 seconds.  So a run that
    starts at 1 shows 0 without any rollover, and it is the following
    run that rolls over. *)
Theorem tick_counts_down_or_rolls_over (h : nat) (s s' : State) :
  reachable s → tick h s = Some s' →
  (0 < displayTime s → s' = setDisplayTime (displayTime s - 1) s) ∧
  (displayTime s = 0 →
     ∃ c, intervals s !! h = Some c ∧
       s' = setDisplayTime (refill c)
              (setBreakOn (negb (breakOn s))
                 (with_intervals (insert h (flipped c)) (playAudio s))) ∧
       plays (audio s') = S (plays (audio s)) ∧
       currentTime (audio s') = 0 ∧ paused (audio s') = false ∧
       breakOn s' = negb (breakOn s) ∧
       displayTime s' =
         (if breakOn s then cap_sessionLength c else cap_breakLength c) * 60 ∧
       60 ≤ displayTime s') ∧
  (displayTime s = 1 →
     displayTime s' = 0 ∧ breakOn s' = breakOn s ∧
     plays (audio s') = plays (audio s) ∧
     ∃ s'', tick h s' = Some s'' ∧ breakOn s'' = negb (breakOn s) ∧
            plays (audio s'') = S (plays (audio s)) ∧ 60 ≤ displayTime s'').
Proof.
  intros Hr Ht.
  destruct (tick_live _ _ _ Ht) as [c Hc].
  destruct (reachable_live h s c Hr Hc) as (_ & _ & Hbv & Hcb & Hcs).
  assert (Hdec : displayTime s ≠ 0 → s' = setDisplayTime (displayTime s - 1) s).
  { intros Hne. rewrite (tick_decrement h s c Hc Hne) in Ht. now injection Ht. }
  assert (Hfill : 60 ≤ refill c)
    by (unfold refill, in_bounds in *; destruct (breakOnVar c); lia).
  split; [| split].
  - intros Hpos. apply Hdec. lia.
  - intros Hz. exists c. split; [exact Hc |].
    rewrite (tick_rollover h s c Hc Hz), Hbv in Ht. injection Ht as <-.
    cbn. unfold refill in *. rewrite Hbv in *. repeat split. exact Hfill.
  - intros H1. rewrite Hdec by lia. cbn. rewrite H1.
    repeat split.
    eexists. split.
    + apply (tick_rollover h _ c); [exact Hc | cbn; lia].
    + cbn. rewrite Hbv. repeat split. exact Hfill.
Qed.

(** The first run after the start, and the run that finds 0 after
    1500 runs. *)
Lemma tick_counts_down_or_rolls_over_witness :
  setDisplayTime 1499 (startTimer initial)
  = setDisplayTime (displayTime (startTimer initial) - 1) (startTimer initial)
  ∧ ∃ s', tick 1 (setDisplayTime 0 (startTimer initial)) = Some s' ∧
          plays (audio s') = 1%nat ∧ breakOn s' = true ∧
          displayTime s' = 5 * 60.
Proof.
  split.
  - assert (Hr : reachable (startTimer initial))
      by (exists [StartStop]; split; reflexivity).
    assert (Ht : tick 1 (startTimer initial)
                 = Some (setDisplayTime 1499 (startTimer initial)))
      by (vm_compute; reflexivity).
    destruct (tick_counts_down_or_rolls_over 1 _ _ Hr Ht) as (Hdec & _).
    apply Hdec. cbn. lia.
  - assert (Hr : reachable (setDisplayTime 0 (startTimer initial)))
      by (exists (StartStop :: repeat (Tick 1) 1500);
          split; vm_compute; reflexivity).
    destruct (tick 1 (setDisplayTime 0 (startTimer initial)))
      as [s' |] eqn:Ht; [| vm_compute in Ht; discriminate Ht].
    destruct (tick_counts_down_or_rolls_over 1 _ s' Hr Ht) as (_ & Hroll & _).
    destruct (Hroll eq_refl) as (c & Hc & _ & Hp & _ & _ & Hb & Hd & _).
    vm_compute in Hc. injection Hc as <-.
    exists s'. repeat split; assumption.
Defined.

(** ** [reset] *)

(** C6.  From every state, whatever it holds, [reset] returns a state
    with break length 5, session length 25, [displayTime] 1500,
    [timerOn] false and [breakOn] false; the interval that [timerOn]
    named is no longer in the browser's table, so its callback cannot
    run; the audio is paused at position 0.  When the table held no
    other interval than the one [timerOn] named, as in every reachable
    state, the table is empty afterwards. *)
Theorem reset_yields_defaults (s : State) :
  breakLength (reset s) = 5 ∧ sessionLength (reset s) = 25 ∧
  displayTime (reset s) = 1500 ∧
  timerOn (reset s) = None ∧ truthy (timerOn (reset s)) = false ∧
  breakOn (reset s) = false ∧
  tick (handle_of_timerOn (timerOn s)) (reset s) = None ∧
  paused (audio (reset s)) = true ∧ currentTime (audio (reset s)) = 0 ∧
  plays (audio (reset s)) = plays (audio s) ∧
  (reachable s → intervals (reset s) = ∅ ∧ ∀ h, tick h (reset s) = None).
Proof.
  repeat split.
  - apply tick_dead. cbn.
    destruct (decide (handle_of_bool (breakOn s) = handle_of_timerOn (timerOn s)))
      as [-> | Hne].
    + apply lookup_delete_eq.
    + rewrite lookup_delete_ne by exact Hne. apply lookup_delete_eq.
  - destruct (Inv_reset s (reachable_Inv s H)) as [_ Ht _ _ _]. exact Ht.
  - intros h. apply tick_dead.
    destruct (Inv_reset s (reachable_Inv s H)) as [_ Ht _ _ _].
    unfold timer_consistent in Ht. cbn in Ht. cbn. rewrite Ht.
    apply lookup_empty.
Qed.

Lemma reset_yields_defaults_witness :
  intervals (reset (startTimer initial)) = ∅.
Proof.
  destruct (reset_yields_defaults (startTimer initial))
    as (_ & _ & _ & _ & _ & _ & _ & _ & _ & _ & Hreach).
  apply Hreach. exists [StartStop]. split; reflexivity.
Defined.

(** ** [startTimer] *)

Lemma adjust_intervals (type : string) (amount : Z) (s : State) :
  intervals (handleIncrementDecrement type amount s) = intervals s.
Proof.
  unfold handleIncrementDecrement.
  repeat match goal with |- context [if ?b then _ else _] => destruct b end;
    reflexivity.
Qed.

Lemma adjust_breakOn (type : string) (amount : Z) (s : State) :
  breakOn (handleIncrementDecrement type amount s) = breakOn s.
Proof.
  unfold handleIncrementDecrement.
  repeat match goal with |- context [if ?b then _ else _] => destruct b end;
    reflexivity.
Qed.

(** With an empty interval table, an event other than a click on
    [start_stop] is not a run of a callback and leaves the table
    empty. *)
Lemma exec_stopped (e : Event) (s s' : State) :
  intervals s = ∅ → is_start_stop e = false → exec e s = Some s' →
  is_tick e = false ∧ intervals s' = ∅.
Proof.
  intros Hi Hns He. destruct e; cbn in *; try discriminate.
  - injection He as <-. now rewrite adjust_intervals.
  - injection He as <-. cbn. now rewrite Hi, !delete_empty.
  - rewrite tick_dead in He by (rewrite Hi; apply lookup_empty). discriminate.
  - now injection He as <-.
Qed.

Lemma run_stopped (evs : list Event) (s s' : State) :
  intervals s = ∅ →
  forallb (λ e, negb (is_start_stop e)) evs = true →
  run evs s = Some s' →
  forallb (λ e, negb (is_tick e)) evs = true ∧ intervals s' = ∅.
Proof.
  revert s. induction evs as [| e evs IH]; intros s Hi Hns Hr; cbn in *.
  - injection Hr as <-. now split.
  - apply andb_true_iff in Hns as [He Hevs].
    apply negb_true_iff in He.
    destruct (exec e s) as [s1 |] eqn:E1; [| discriminate].
    destruct (exec_stopped e s s1 Hi He E1) as [Hnt Hi1].
    destruct (IH s1 Hi1 Hevs Hr) as [Hrest Hi'].
    now rewrite Hnt, Hrest.
Qed.

(** C7.  In a reachable state in which [timerOn] is false, a first
    click on [start_stop] makes [timerOn] truthy and installs the
    interval, whose callback can then run; a second click makes
    [timerOn] false again and removes the interval: no callback can
    run in the resulting state, and in every sequence of events that
    follows and has no further click on [start_stop] there is no run of
    a callback at all, so nothing decrements [displayTime]. *)
Theorem start_twice_stops_ticking (s : State) :
  reachable s → timerOn s = None →
  truthy (timerOn s) = false ∧
  truthy (timerOn (startTimer s)) = true ∧
  is_Some (tick (nextHandle s) (startTimer s)) ∧
  timerOn (startTimer (startTimer s)) = None ∧
  displayTime (startTimer (startTimer s)) = displayTime s ∧
  intervals (startTimer (startTimer s)) = ∅ ∧
  (∀ h, tick h (startTimer (startTimer s)) = None) ∧
  (∀ evs s', forallb (λ e, negb (is_start_stop e)) evs = true →
             run evs (startTimer (startTimer s)) = Some s' →
             forallb (λ e, negb (is_tick e)) evs = true ∧ intervals s' = ∅).
Proof.
  intros Hr Hoff.
  destruct (reachable_Inv s Hr) as [Hh Ht _ _ _].
  unfold timer_consistent in Ht. rewrite Hoff in Ht.
  assert (Hnz : (nextHandle s =? 0)%nat = false) by now apply Nat.eqb_neq.
  assert (H1 : startTimer s =
               setTimerOn (Some (nextHandle s))
                 (snd (setInterval
                         (mkClosure (breakLength s) (sessionLength s) (breakOn s))
                         s)))
    by (unfold startTimer; now rewrite Hoff).
  assert (Hempty : intervals (startTimer (startTimer s)) = ∅).
  { rewrite H1. unfold startTimer. cbn. rewrite Hnz. cbn.
    rewrite Ht, delete_insert_eq. apply delete_empty. }
  assert (Hlive : intervals (startTimer s) !! nextHandle s
                  = Some (mkClosure (breakLength s) (sessionLength s) (breakOn s)))
    by (rewrite H1; cbn; apply lookup_insert_eq).
  repeat split.
  - now rewrite Hoff.
  - rewrite H1. cbn. now rewrite Hnz.
  - unfold tick. rewrite Hlive.
    repeat match goal with |- context [if ?b then _ else _] => destruct b end;
      eauto.
  - rewrite H1. unfold startTimer. cbn. now rewrite Hnz.
  - rewrite H1. unfold startTimer. cbn. now rewrite Hnz.
  - exact Hempty.
  - intros h. apply tick_dead. rewrite Hempty. apply lookup_empty.
  - eapply run_stopped; eauto.
  - eapply run_stopped; eauto.
Qed.

Lemma start_twice_stops_ticking_witness :
  truthy (timerOn (startTimer initial)) = true
  ∧ tick 1 (startTimer (startTimer initial)) = None.
Proof.
  assert (Hr : reachable initial) by (exists []; split; reflexivity).
  destruct (start_twice_stops_ticking initial Hr eq_refl)
    as (_ & Hon & _ & _ & _ & _ & Hdead & _).
  split; [exact Hon | apply Hdead].
Defined.

(** ** Lengths captured by the callback *)

Lemma captured_exec (h : nat) (b l : Z) (e : Event) (s s' : State) :
  is_adjust e || is_tick e = true →
  captured h b l s → exec e s = Some s' → captured h b l s'.
Proof.
  intros He (c & Hi & Hb & Hl & Hv) Hs'.
  destruct e; cbn in He; try discriminate; cbn [exec] in Hs'.
  - injection Hs' as <-. exists c.
    now rewrite adjust_intervals, adjust_breakOn.
  - destruct (tick_live _ _ _ Hs') as [c' Hc'].
    rewrite Hi in Hc'. apply lookup_singleton_Some in Hc' as [<- <-].
    assert (Hlive : intervals s !! h = Some c)
      by (rewrite Hi; apply lookup_singleton_eq).
    destruct (Z.eq_dec (displayTime s) 0) as [Hz | Hnz].
    + rewrite (tick_rollover h s c Hlive Hz) in Hs'. injection Hs' as <-.
      exists (flipped c). cbn. rewrite Hi, insert_singleton_eq. auto.
    + rewrite (tick_decrement h s c Hlive Hnz) in Hs'. injection Hs' as <-.
      exists c. auto.
Qed.

Lemma captured_run (h : nat) (b l : Z) (evs : list Event) (s s' : State) :
  forallb (λ e, is_adjust e || is_tick e) evs = true →
  captured h b l s → run evs s = Some s' → captured h b l s'.
Proof.
  revert s. induction evs as [| e evs IH]; intros s Hevs Hc Hr; cbn in *.
  - now injection Hr as <-.
  - apply andb_true_iff in Hevs as [He Hevs].
    destruct (exec e s) as [s1 |] eqn:E1; [| discriminate].
    apply (IH s1); [exact Hevs | | exact Hr].
    now apply (captured_exec h b l e s).
Qed.

Lemma captured_start (s : State) :
  intervals s = ∅ → truthy (timerOn s) = false →
  captured (nextHandle s) (breakLength s) (sessionLength s) (startTimer s).
Proof.
  intros Hi Hoff. unfold startTimer. rewrite Hoff. cbn.
  eexists. cbn. rewrite Hi. repeat split.
Qed.

(** C8.  Let the interval be created by a click on [start_stop] in a
    reachable state [s0] with [timerOn] false.  After every sequence of
    calls of [handleIncrementDecrement] (any target, any amount) and
    runs of callbacks, a run that finds [displayTime] at 0 writes the
    length that [s0] had for the phase it enters, times 60: the break
    length of [s0] when it enters the break, the session length of [s0]
    when it enters the session.  The lengths of the current state are
    not read. *)
Theorem rollover_uses_captured_lengths
    (s0 : State) (evs : list Event) (s : State) :
  reachable s0 → timerOn s0 = None →
  forallb (λ e, is_adjust e || is_tick e) evs = true →
  run evs (startTimer s0) = Some s →
  displayTime s = 0 →
  ∃ s', tick (nextHandle s0) s = Some s' ∧
        breakOn s' = negb (breakOn s) ∧
        displayTime s' =
          (if breakOn s then sessionLength s0 else breakLength s0) * 60.
Proof.
  intros Hr Hoff Hevs Hrun Hz.
  destruct (reachable_Inv s0 Hr) as [_ Ht _ _ _].
  unfold timer_consistent in Ht. rewrite Hoff in Ht.
  assert (Hc : captured (nextHandle s0) (breakLength s0) (sessionLength s0) s).
  { apply (captured_run _ _ _ evs (startTimer s0)); [exact Hevs | | exact Hrun].
    apply captured_start; [exact Ht | now rewrite Hoff]. }
  destruct Hc as (c & Hi & Hb & Hl & Hv).
  assert (Hlive : intervals s !! nextHandle s0 = Some c)
    by (rewrite Hi; apply lookup_singleton_eq).
  eexists. split; [apply (tick_rollover _ s c Hlive Hz) |].
  cbn. unfold refill. rewrite Hv, Hb, Hl. split; reflexivity.
Qed.

(** After the start with the default lengths, the break length is
    raised to 6; the rollover 1500 runs later still writes 5 * 60. *)
Lemma rollover_uses_captured_lengths_witness :
  ∃ s s', run (Adjust "break" 1 :: repeat (Tick 1) 1500) (startTimer initial)
          = Some s ∧
          breakLength s = 6 ∧ tick 1 s = Some s' ∧ displayTime s' = 5 * 60.
Proof.
  assert (Hr : reachable initial) by (exists []; split; reflexivity).
  destruct (run (Adjust "break" 1 :: repeat (Tick 1) 1500) (startTimer initial))
    as [s |] eqn:Hrun; [| vm_compute in Hrun; discriminate Hrun].
  assert (Hb : breakLength s = 6 ∧ displayTime s = 0 ∧ breakOn s = false).
  { vm_compute in Hrun. injection Hrun as <-. repeat split. }
  destruct Hb as (Hb & Hz & Hon).
  destruct (rollover_uses_captured_lengths initial
              (Adjust "break" 1 :: repeat (Tick 1) 1500) s
              Hr eq_refl eq_refl Hrun Hz) as (s' & Ht & _ & Hd).
  rewrite Hon in Hd.
  exists s, s'. repeat split; assumption.
Defined.

(** ** [displayTime] is never negative *)

(** C9.  In every state that the length buttons, [start_stop],
    [reset], the dark mode button and the runs of the interval
    callback produce from the first render, [displayTime] is at least
    0. *)
Theorem displayTime_nonnegative (s : State) :
  reachable s → 0 ≤ displayTime s.
Proof. intros Hr. now destruct (reachable_Inv s Hr). Qed.

Lemma displayTime_nonnegative_witness :
  0 ≤ displayTime (handleIncrementDecrement "session" (-1) (startTimer initial)).
Proof.
  apply displayTime_nonnegative.
  exists [StartStop; Adjust "session" (-1)]. split; reflexivity.
Defined.

(** ** Counting down to the first rollover *)

Lemma setDisplayTime_same (s : State) : setDisplayTime (displayTime s) s = s.
Proof. now destruct s. Qed.

(** While [displayTime] is large enough, [k] runs subtract [k]. *)
Lemma ticks_decrement (k h : nat) (s : State) (c : Closure) :
  intervals s !! h = Some c → Z.of_nat k ≤ displayTime s →
  ticks k h s = Some (setDisplayTime (displayTime s - Z.of_nat k) s).
Proof.
  revert s. induction k as [| k IH]; intros s Hc Hk.
  - cbn [ticks]. now rewrite Z.sub_0_r, setDisplayTime_same.
  - cbn [ticks]. rewrite (tick_decrement h s c Hc) by lia.
    rewrite (IH (setDisplayTime (displayTime s - 1) s) Hc) by (cbn; lia).
    unfold setDisplayTime. cbn. do 2 f_equal. lia.
Qed.

(** From [displayTime = n], the rollover happens in run [n + 1]. *)
Lemma ticks_rollover (n h : nat) (s : State) (c : Closure) :
  intervals s !! h = Some c → displayTime s = Z.of_nat n →
  ticks (S n) h s =
  Some (setDisplayTime (refill c)
          (setBreakOn (negb (breakOnVar c))
             (with_intervals (insert h (flipped c))
                (playAudio (setDisplayTime 0 s))))).
Proof.
  intros Hc Hn.
  replace (S n) with (n + 1)%nat by lia.
  assert (Hsplit : ∀ a b t, ticks (a + b) h t
                            = match ticks a h t with
                              | Some t' => ticks b h t'
                              | None => None
                              end).
  { induction a as [| a IHa]; intros b t; cbn; [reflexivity |].
    destruct (tick h t); [apply IHa | reflexivity]. }
  rewrite Hsplit, (ticks_decrement n h s c Hc) by lia.
  rewrite Hn, Z.sub_diag. cbn [ticks].
  now rewrite (tick_rollover h (setDisplayTime 0 s) c Hc).
Qed.

(** C2 as stated fails: after 1500 runs of the callback the display
    shows 0 and nothing else has happened yet. *)
Lemma no_rollover_after_1500_ticks :
  ¬ (∃ s, ticks 1500 1 (startTimer initial) = Some s ∧
          plays (audio s) = 1%nat ∧ breakOn s = true ∧
          displayTime s = breakLength s * 60).
Proof.
  intros (s & Hs & Hp & _).
  rewrite (ticks_decrement 1500 1 (startTimer initial)
             (mkClosure 5 25 false) eq_refl) in Hs by (cbn; lia).
  injection Hs as <-. cbn in Hp. discriminate Hp.
Qed.

(** C2, amended.  After the start from the first render (session 25,
    break 5): for every [k] up to 1500, [k] runs of the callback only
    subtract [k] from 1500, so after 1500 runs [displayTime] is 0, the
    audio has not played and [breakOn] is still false; after exactly
    1501 runs the audio has played exactly once, [breakOn] is true and
    [displayTime] is the break length times 60, that is 300. *)
Theorem first_rollover_after_1501_ticks :
  (∀ k, (k ≤ 1500)%nat →
        ticks k 1 (startTimer initial)
        = Some (setDisplayTime (1500 - Z.of_nat k) (startTimer initial))) ∧
  (∃ s, ticks 1500 1 (startTimer initial) = Some s ∧
        displayTime s = 0 ∧ plays (audio s) = 0%nat ∧ breakOn s = false) ∧
  (∃ s, ticks 1501 1 (startTimer initial) = Some s ∧
        plays (audio s) = 1%nat ∧ breakOn s = true ∧
        displayTime s = breakLength s * 60 ∧ displayTime s = 300).
Proof.
  assert (Hc : intervals (startTimer initial) !! 1%nat
               = Some (mkClosure 5 25 false)) by reflexivity.
  split; [| split].
  - intros k Hk.
    now rewrite (ticks_decrement k 1 _ _ Hc) by (cbn; lia).
  - eexists. split.
    + apply (ticks_decrement 1500 1 _ _ Hc). cbn. lia.
    + repeat split.
  - eexists. split.
    + apply (ticks_rollover 1500 1 _ _ Hc). reflexivity.
    + repeat split.
Qed.

Lemma first_rollover_after_1501_ticks_witness :
  ticks 60 1 (startTimer initial)
  = Some (setDisplayTime (1500 - 60) (startTimer initial)).
Proof.
  destruct first_rollover_after_1501_ticks as (Hdec & _).
  apply (Hdec 60%nat). lia.
Defined.

(** ** [timeFormat] *)

Section Digits.

Local Open Scope N_scope.

Lemma digits_last (fuel : nat) (n : N) (acc : string) :
  n < 10 → Js.digits (S fuel) n acc = String (Js.digit n) acc.
Proof. intros H. cbn [Js.digits]. now rewrite N.div_small. Qed.

Lemma digits_next (fuel : nat) (n : N) (acc : string) :
  10 ≤ n →
  Js.digits (S fuel) n acc = Js.digits fuel (n / 10) (String (Js.digit n) acc).
Proof.
  intros H. cbn [Js.digits].
  destruct (N.eqb_spec (n / 10) 0) as [E | _]; [| reflexivity].
  apply N.div_small_iff in E; lia.
Qed.

Lemma length_digits (fuel : nat) (n : N) (acc : string) :
  (String.length acc ≤ String.length (Js.digits fuel n acc))%nat.
Proof.
  revert n acc. induction fuel as [| fuel IH]; intros n acc; cbn; [lia |].
  destruct (n / 10 =? 0); cbn; [lia |].
  etransitivity; [| apply IH]. cbn. lia.
Qed.

Lemma size_nat_positive (n : N) : n ≠ 0 → (1 ≤ N.size_nat n)%nat.
Proof. destruct n as [| p]; [congruence |]. destruct p; cbn; lia. Qed.

End Digits.

Section ToString.

Variable z : Z.
Hypothesis Hz : 0 ≤ z.

Lemma toString_nonneg :
  Js.toString z
  = Js.digits (S (N.size_nat (Z.to_N z))) (Z.to_N z) EmptyString.
Proof.
  unfold Js.toString.
  destruct (Z.ltb_spec z 0); [lia |].
  now rewrite Zabs2N.abs_N_nonneg by exact Hz.
Qed.

Lemma toString_one_digit :
  z < 10 → Js.toString z = String (Js.digit (Z.to_N z)) "".
Proof.
  intros H. rewrite toString_nonneg. apply digits_last. lia.
Qed.

Lemma toString_two_digits :
  10 ≤ z < 100 →
  Js.toString z
  = String (Js.digit (Z.to_N z / 10)) (String (Js.digit (Z.to_N z)) "").
Proof.
  intros H. rewrite toString_nonneg.
  destruct (N.size_nat (Z.to_N z)) as [| k] eqn:Ek.
  - pose proof (size_nat_positive (Z.to_N z)). lia.
  - rewrite digits_next by lia. apply digits_last.
    apply N.Div0.div_lt_upper_bound. lia.
Qed.

Lemma toString_long : 10 ≤ z → (2 ≤ String.length (Js.toString z))%nat.
Proof.
  intros H. rewrite toString_nonneg.
  destruct (N.size_nat (Z.to_N z)) as [| k] eqn:Ek.
  - pose proof (size_nat_positive (Z.to_N z)). lia.
  - rewrite digits_next by lia. cbn [Js.digits].
    destruct (Z.to_N z / 10 / 10 =? 0)%N; cbn; [lia |].
    etransitivity; [| apply length_digits]. cbn. lia.
Qed.

Lemma padStart_two_digits :
  Js.padStart 2 "0" (Js.toString z) = FormatSpec.two_digits z.
Proof.
  unfold FormatSpec.two_digits.
  destruct (Z.ltb_spec z 10) as [Hlt | Hge].
  - now rewrite toString_one_digit.
  - unfold Js.padStart.
    pose proof (toString_long Hge) as Hlen.
    destruct (Nat.leb_spec 2 (String.length (Js.toString z))); [reflexivity | lia].
Qed.

End ToString.

(** C10.  For every integer [seconds] from 0 to
    [Number.MAX_SAFE_INTEGER], the integers on which the arithmetic of
    the script is exact, [timeFormat] returns the minutes
    [seconds / 60] (rounded down) and the seconds [seconds mod 60],
    each written with at least two decimal digits, a zero in front
    when there is only one, and joined by a colon; below 6000 seconds
    that is the five characters MM:SS.  In particular the results at
    0, 65 and 3599 are 00:00, 01:05 and 59:59. *)
Theorem timeFormat_pads_and_joins (seconds : Z) :
  (0 ≤ seconds ≤ Js.MAX_SAFE_INTEGER →
     timeFormat seconds = FormatSpec.format seconds) ∧
  (0 ≤ seconds < 6000 → timeFormat seconds = FormatSpec.mm_ss seconds) ∧
  timeFormat 0 = "00:00" ∧ timeFormat 65 = "01:05" ∧
  timeFormat 3599 = "59:59".
Proof.
  assert (Hfmt : 0 ≤ seconds → timeFormat seconds = FormatSpec.format seconds).
  { intros H. unfold timeFormat, FormatSpec.format.
    rewrite Z.rem_mod_nonneg by lia.
    rewrite !padStart_two_digits; [reflexivity | |].
    - apply Z.mod_pos_bound. lia.
    - apply Z.div_pos; lia. }
  assert (Htwo : ∀ n, 0 ≤ n < 100 →
            FormatSpec.two_digits n
            = String (Js.digit (Z.to_N n / 10)) (String (Js.digit (Z.to_N n)) "")).
  { intros n Hn. unfold FormatSpec.two_digits.
    destruct (Z.ltb_spec n 10) as [Hlt | Hge].
    - rewrite toString_one_digit by lia.
      rewrite N.div_small by lia. reflexivity.
    - apply toString_two_digits; lia. }
  split; [intros [H0 _]; now apply Hfmt | split; [| repeat split]].
  intros H. rewrite Hfmt by lia. unfold FormatSpec.format, FormatSpec.mm_ss.
  rewrite !Htwo; [reflexivity | |].
  - pose proof (Z.mod_pos_bound seconds 60). lia.
  - split; [apply Z.div_pos; lia |].
    apply Z.div_lt_upper_bound; lia.
Qed.

Lemma timeFormat_pads_and_joins_witness :
  timeFormat 754 = FormatSpec.format 754 ∧ timeFormat 754 = "12:34".
Proof.
  destruct (timeFormat_pads_and_joins 754) as (Hfmt & Hmm & _).
  split; [| rewrite Hmm by lia; reflexivity].
  apply Hfmt. split; [lia | discriminate].
Defined.

(** * Further properties of the component *)

(** ** Lengths *)

(** X1.  In every reachable state the break length and the session
    length are between 1 and 60. *)
Theorem lengths_stay_in_bounds (s : State) :
  reachable s →
  1 ≤ breakLength s ≤ 60 ∧ 1 ≤ sessionLength s ≤ 60.
Proof.
  intros Hr. destruct (reachable_Inv s Hr) as [_ _ _ Hb Hl]. now split.
Qed.

(** Clicks on the break increment reach the upper end and stop there. *)
Lemma lengths_stay_in_bounds_witness :
  ∃ s, run (repeat (Adjust "break" 1) 56) initial = Some s ∧
       1 ≤ breakLength s ≤ 60 ∧ breakLength s = 60.
Proof.
  destruct (run (repeat (Adjust "break" 1) 56) initial) as [s |] eqn:Hrun;
    [| vm_compute in Hrun; discriminate Hrun].
  assert (Hr : reachable s) by (eexists; split; [| exact Hrun]; reflexivity).
  destruct (lengths_stay_in_bounds s Hr) as [Hb _].
  exists s. repeat split; try apply Hb.
  vm_compute in Hrun. now injection Hrun as <-.
Defined.

Lemma adjust_frame (type : string) (amount : Z) (s : State) :
  timerOn (handleIncrementDecrement type amount s) = timerOn s ∧
  darkMode (handleIncrementDecrement type amount s) = darkMode s ∧
  audio (handleIncrementDecrement type amount s) = audio s ∧
  nextHandle (handleIncrementDecrement type amount s) = nextHandle s.
Proof.
  unfold handleIncrementDecrement.
  repeat match goal with |- context [if ?b then _ else _] => destruct b end;
    repeat split.
Qed.

Lemma tick_lengths (h : nat) (s s' : State) :
  tick h s = Some s' →
  breakLength s' = breakLength s ∧ sessionLength s' = sessionLength s.
Proof.
  unfold tick. destruct (intervals s !! h) as [c |]; [| discriminate].
  repeat match goal with |- context [if ?b then _ else _] => destruct b end;
    intros [= <-]; now split.
Qed.

Lemma startTimer_lengths (s : State) :
  breakLength (startTimer s) = breakLength s ∧
  sessionLength (startTimer s) = sessionLength s.
Proof. unfold startTimer. destruct (truthy (timerOn s)); now split. Qed.

(** A length outside 2..59 is rejected by the guard whatever the
    amount is; the other events do not write the lengths. *)
Lemma exec_stuck (e : Event) (s s' : State) :
  is_reset e = false → exec e s = Some s' →
  (breakLength s ≤ 1 ∨ 60 ≤ breakLength s → breakLength s' = breakLength s) ∧
  (sessionLength s ≤ 1 ∨ 60 ≤ sessionLength s →
     sessionLength s' = sessionLength s).
Proof.
  intros Hnr He. destruct e; cbn in *; try discriminate.
  - injection He as <-. unfold handleIncrementDecrement.
    destruct (String.eqb type "break"); [| destruct (String.eqb type "session")].
    + split; [intros H; now rewrite guard_rejects |].
      intros _. now destruct ((breakLength s <=? 1) || (breakLength s >=? 60)).
    + split; [| intros H; now rewrite guard_rejects].
      intros _. now destruct ((sessionLength s <=? 1) || (sessionLength s >=? 60)).
    + now split.
  - injection He as <-. destruct (startTimer_lengths s) as [-> ->]. now split.
  - destruct (tick_lengths h s s' He) as [-> ->]. now split.
  - injection He as <-. now split.
Qed.

(** X2.  A length that is at most 1 or at least 60 stays as it is
    through every sequence of events without a click on [reset],
    whatever amounts the adjustments carry: no increment and no
    decrement moves it again. *)
Theorem length_stuck_until_reset (evs : list Event) (s s' : State) :
  forallb (λ e, negb (is_reset e)) evs = true →
  run evs s = Some s' →
  (breakLength s ≤ 1 ∨ 60 ≤ breakLength s → breakLength s' = breakLength s) ∧
  (sessionLength s ≤ 1 ∨ 60 ≤ sessionLength s →
     sessionLength s' = sessionLength s).
Proof.
  revert s. induction evs as [| e evs IH]; intros s Hnr Hrun; cbn in *.
  - injection Hrun as <-. now split.
  - apply andb_true_iff in Hnr as [He Hevs]. apply negb_true_iff in He.
    destruct (exec e s) as [s1 |] eqn:E1; [| discriminate].
    destruct (exec_stuck e s s1 He E1) as [Hb1 Hl1].
    destruct (IH s1 Hevs Hrun) as [Hb Hl].
    split; intros H.
    + rewrite <- (Hb1 H). apply Hb. now rewrite (Hb1 H).
    + rewrite <- (Hl1 H). apply Hl. now rewrite (Hl1 H).
Qed.

(** At 60, decrements do nothing either. *)
Lemma length_stuck_until_reset_witness :
  breakLength
    (handleIncrementDecrement "break" (-1)
       (handleIncrementDecrement "break" (-1) (setBreakLength 60 initial)))
  = 60.
Proof.
  destruct (length_stuck_until_reset
              [Adjust "break" (-1); Adjust "break" (-1)]
              (setBreakLength 60 initial) _ eq_refl eq_refl) as [Hb _].
  apply Hb. right. cbn. lia.
Defined.

(** X3.  A call of [handleIncrementDecrement], with any target and
    any amount, leaves [timerOn], [breakOn], the audio, the dark mode
    and the interval table as they are; a call for the break leaves
    the session length, and a call for the session leaves the break
    length; a call with any other target returns the state
    unchanged. *)
Theorem adjust_leaves_the_rest (type : string) (amount : Z) (s : State) :
  timerOn (handleIncrementDecrement type amount s) = timerOn s ∧
  breakOn (handleIncrementDecrement type amount s) = breakOn s ∧
  audio (handleIncrementDecrement type amount s) = audio s ∧
  darkMode (handleIncrementDecrement type amount s) = darkMode s ∧
  intervals (handleIncrementDecrement type amount s) = intervals s ∧
  sessionLength (handleIncrementDecrement "break" amount s) = sessionLength s ∧
  breakLength (handleIncrementDecrement "session" amount s) = breakLength s ∧
  (type ≠ "break" → type ≠ "session" →
     handleIncrementDecrement type amount s = s).
Proof.
  destruct (adjust_frame type amount s) as (Ht & Hd & Ha & _).
  repeat split; try assumption.
  - apply adjust_breakOn.
  - apply adjust_intervals.
  - rewrite adjust_break_eq.
    now destruct ((breakLength s <=? 1) || (breakLength s >=? 60)).
  - rewrite adjust_session_eq.
    now destruct ((sessionLength s <=? 1) || (sessionLength s >=? 60)).
  - intros Hb Hs. unfold handleIncrementDecrement.
    apply String.eqb_neq in Hb, Hs. now rewrite Hb, Hs.
Qed.

Lemma adjust_leaves_the_rest_witness :
  handleIncrementDecrement "Session" 1 initial = initial.
Proof.
  destruct (adjust_leaves_the_rest "Session" 1 initial)
    as (_ & _ & _ & _ & _ & _ & _ & Hother).
  apply Hother; discriminate.
Defined.

(** ** The interval and the start button *)

Lemma tick_cases (h : nat) (s s' : State) :
  tick h s = Some s' →
  ∃ c, intervals s !! h = Some c ∧
       ((displayTime s ≠ 0 ∧ s' = setDisplayTime (displayTime s - 1) s) ∨
        (displayTime s = 0 ∧
         s' = setDisplayTime (refill c)
                (setBreakOn (negb (breakOnVar c))
                   (with_intervals (insert h (flipped c)) (playAudio s))))).
Proof.
  intros Ht. destruct (tick_live _ _ _ Ht) as [c Hc]. exists c.
  split; [exact Hc |].
  destruct (Z.eq_dec (displayTime s) 0) as [Hz | Hnz].
  - right. rewrite (tick_rollover h s c Hc Hz) in Ht. now injection Ht.
  - left. rewrite (tick_decrement h s c Hc Hnz) in Ht. now injection Ht.
Qed.

Lemma tick_is_Some (h : nat) (s : State) :
  is_Some (tick h s) ↔ is_Some (intervals s !! h).
Proof.
  split.
  - intros [s' Ht]. destruct (tick_live _ _ _ Ht) as [c Hc]. now exists c.
  - intros [c Hc].
    destruct (Z.eq_dec (displayTime s) 0) as [Hz | Hnz].
    + rewrite (tick_rollover h s c Hc Hz). eauto.
    + rewrite (tick_decrement h s c Hc Hnz). eauto.
Qed.

(** X4.  In every reachable state the page shows the pause icon
    exactly when some interval callback can run; the only callback
    that can run is the one whose handle [timerOn] holds, and the
    browser's table never holds more than one interval of the
    component. *)
Theorem pause_icon_iff_ticking (s : State) :
  reachable s →
  (start_stop_icon (render s) = "fa-solid fa-pause" ↔ ∃ h, is_Some (tick h s)) ∧
  (∀ h, is_Some (tick h s) ↔ timerOn s = Some h) ∧
  (size (intervals s) ≤ 1)%nat.
Proof.
  intros Hr. destruct (reachable_Inv s Hr) as [_ Ht _ _ _].
  unfold timer_consistent in Ht. cbn [render start_stop_icon].
  destruct (timerOn s) as [k |] eqn:Ek; cbn [truthy].
  - destruct Ht as (Hk & c & Hi & _).
    apply Nat.eqb_neq in Hk as Hk'. rewrite Hk'. cbn [negb].
    assert (Hlive : ∀ h, is_Some (tick h s) ↔ Some k = Some h).
    { intros h. rewrite tick_is_Some, Hi, lookup_singleton_is_Some.
      split; congruence. }
    split; [| split].
    + split; [| reflexivity]. intros _. exists k. now apply Hlive.
    + exact Hlive.
    + rewrite Hi, map_size_singleton. lia.
  - assert (Hdead : ∀ h, ¬ is_Some (tick h s)).
    { intros h. rewrite tick_is_Some, Ht. apply lookup_empty_is_Some. }
    split; [| split].
    + split; [discriminate |]. intros [h Hh]. now apply Hdead in Hh.
    + intros h. split; [intros Hh; now apply Hdead in Hh | discriminate].
    + rewrite Ht, map_size_empty. lia.
Qed.

Lemma pause_icon_iff_ticking_witness :
  start_stop_icon (render (startTimer initial)) = "fa-solid fa-pause"
  ↔ ∃ h, is_Some (tick h (startTimer initial)).
Proof.
  apply pause_icon_iff_ticking. exists [StartStop]. split; reflexivity.
Defined.

(** X5.  When the timer runs, a click on [start_stop] followed by
    another one keeps [displayTime], the phase and the lengths, and
    installs a new interval whose callback has closed over the
    lengths as they are now. *)
Theorem pause_and_resume_recaptures (s : State) :
  reachable s → truthy (timerOn s) = true →
  displayTime (startTimer (startTimer s)) = displayTime s ∧
  breakOn (startTimer (startTimer s)) = breakOn s ∧
  timerOn (startTimer (startTimer s)) = Some (nextHandle s) ∧
  intervals (startTimer (startTimer s))
  = {[nextHandle s :=
        mkClosure (breakLength s) (sessionLength s) (breakOn s)]}.
Proof.
  intros Hr Hon. destruct (reachable_Inv s Hr) as [_ Ht _ _ _].
  unfold timer_consistent in Ht.
  destruct (timerOn s) as [k |] eqn:Ek; [| discriminate].
  destruct Ht as (_ & c & Hi & _).
  assert (H1 : startTimer s = setTimerOn None (clearInterval k s))
    by (unfold startTimer; now rewrite Ek, Hon).
  rewrite H1. unfold startTimer. cbn.
  rewrite Hi, delete_singleton_eq. repeat split.
Qed.

(** The break length is raised to 6 while the timer runs; after a
    pause and a resume the callback holds 6. *)
Lemma pause_and_resume_recaptures_witness :
  intervals (startTimer (startTimer
               (handleIncrementDecrement "break" 1 (startTimer initial))))
  = {[2%nat := mkClosure 6 25 false]}.
Proof.
  apply (pause_and_resume_recaptures
           (handleIncrementDecrement "break" 1 (startTimer initial))).
  - exists [StartStop; Adjust "break" 1]. split; reflexivity.
  - reflexivity.
Defined.

(** ** Counting down and rolling over *)

Lemma ticks_add (a b h : nat) (s : State) :
  ticks (a + b) h s
  = match ticks a h s with
    | Some s' => ticks b h s'
    | None => None
    end.
Proof.
  revert s. induction a as [| a IH]; intros s; cbn; [reflexivity |].
  destruct (tick h s); [apply IH | reflexivity].
Qed.

(** X6.  While an interval is live, [k] runs of its callback from a
    [displayTime] of at least [k] subtract exactly [k] and change
    nothing else: no sound, no change of phase. *)
Theorem ticks_only_count_down (k h : nat) (s : State) :
  is_Some (intervals s !! h) → Z.of_nat k ≤ displayTime s →
  ticks k h s = Some (setDisplayTime (displayTime s - Z.of_nat k) s).
Proof. intros [c Hc] Hk. now apply (ticks_decrement k h s c). Qed.

Lemma ticks_only_count_down_witness :
  ticks 100 1 (startTimer initial)
  = Some (setDisplayTime (1500 - 100) (startTimer initial)).
Proof.
  apply (ticks_only_count_down 100 1 (startTimer initial)).
  - now eexists.
  - cbn. lia.
Defined.

(** X7.  In a reachable state with a live interval whose callback
    holds [c], let [n] be [displayTime] and [m] the captured length of
    the other phase in seconds.  After [n + 1] runs followed by
    [m + 1] runs the phase is the one it was, the audio has played
    twice more, the lengths are untouched and [displayTime] is the
    captured length of that phase in seconds: a full cycle. *)
Theorem full_cycle (h : nat) (s : State) (c : Closure) :
  reachable s → intervals s !! h = Some c →
  ∃ s', ticks (S (Z.to_nat (displayTime s)) + S (Z.to_nat (refill c))) h s
        = Some s' ∧
        breakOn s' = breakOn s ∧
        plays (audio s') = S (S (plays (audio s))) ∧
        displayTime s' = refill (flipped c) ∧
        intervals s' = intervals s ∧
        breakLength s' = breakLength s ∧ sessionLength s' = sessionLength s.
Proof.
  intros Hr Hc.
  destruct (reachable_live h s c Hr Hc) as (_ & Hi & Hbv & Hcb & Hcs).
  destruct (reachable_Inv s Hr) as [_ _ Hd _ _].
  assert (Hfill : 0 ≤ refill c)
    by (unfold refill, in_bounds in *; destruct (breakOnVar c); lia).
  rewrite ticks_add.
  rewrite (ticks_rollover _ h s c Hc) by (now rewrite Z2Nat.id).
  eexists. split.
  - apply (ticks_rollover _ h _ (flipped c)).
    + cbn. apply lookup_insert_eq.
    + cbn. now rewrite Z2Nat.id.
  - cbn. rewrite negb_involutive, Hbv. repeat split.
    rewrite insert_insert_eq, Hi, insert_singleton_eq.
    now destruct c as [b l []].
Qed.

(** From the start with the default lengths: 1501 runs, then 301. *)
Lemma full_cycle_witness :
  ∃ s', ticks (1501 + 301) 1 (startTimer initial) = Some s' ∧
        breakOn s' = false ∧ plays (audio s') = 2%nat ∧
        displayTime s' = 25 * 60.
Proof.
  assert (Hr : reachable (startTimer initial))
    by (exists [StartStop]; split; reflexivity).
  destruct (full_cycle 1 (startTimer initial) (mkClosure 5 25 false)
              Hr eq_refl) as (s' & Ht & Hb & Hp & Hd & _).
  exists s'. repeat split; assumption.
Defined.

(** ** When the audio plays and the phase changes *)

(** X8.  One event changes the play count of the audio only when it
    is a run of a callback that finds [displayTime] at 0, and then by
    exactly one; it changes [breakOn] only when it is such a run or a
    click on [reset]. *)
Theorem sound_and_phase_change_only_at_rollover (e : Event) (s s' : State) :
  exec e s = Some s' →
  (plays (audio s') ≠ plays (audio s) →
     (∃ h, e = Tick h) ∧ displayTime s = 0 ∧
     plays (audio s') = S (plays (audio s))) ∧
  (breakOn s' ≠ breakOn s →
     e = Reset ∨ ((∃ h, e = Tick h) ∧ displayTime s = 0)).
Proof.
  intros He. destruct e; cbn [exec] in He.
  - injection He as <-.
    destruct (adjust_frame type amount s) as (_ & _ & -> & _).
    rewrite adjust_breakOn. split; congruence.
  - injection He as <-. unfold startTimer.
    destruct (truthy (timerOn s)); cbn; split; congruence.
  - injection He as <-. cbn. split; [congruence | auto].
  - destruct (tick_cases h s s' He) as (c & _ & [[_ ->] | [Hz ->]]); cbn.
    + split; congruence.
    + split; intros _; eauto.
  - injection He as <-. cbn. split; congruence.
Qed.

Lemma sound_and_phase_change_only_at_rollover_witness :
  ∃ s', tick 1 (setDisplayTime 0 (startTimer initial)) = Some s' ∧
        plays (audio s')
        = S (plays (audio (setDisplayTime 0 (startTimer initial)))).
Proof.
  destruct (tick 1 (setDisplayTime 0 (startTimer initial)))
    as [s' |] eqn:Ht; [| vm_compute in Ht; discriminate Ht].
  destruct (sound_and_phase_change_only_at_rollover
              (Tick 1) (setDisplayTime 0 (startTimer initial)) s' Ht)
    as [Hsound _].
  exists s'. split; [reflexivity |].
  apply Hsound.
  vm_compute in Ht. injection Ht as <-. cbn. lia.
Defined.

(** ** The time on display *)

Lemma upper_exec (e : Event) (s s' : State) :
  button_event e = true → Inv s → displayTime s ≤ 3600 →
  exec e s = Some s' → displayTime s' ≤ 3600.
Proof.
  intros Hb [_ Ht _ _ Hsl] Hd He. destruct e; cbn [exec] in He.
  - injection He as <-. apply button_adjust in Hb as [[-> | ->] Ha].
    + rewrite adjust_break_eq.
      now destruct ((breakLength s <=? 1) || (breakLength s >=? 60)).
    + rewrite adjust_session_eq.
      destruct (Z.leb_spec (sessionLength s) 1),
               (Z.geb_spec (sessionLength s) 60); cbn; lia.
  - injection He as <-. unfold startTimer.
    now destruct (truthy (timerOn s)).
  - injection He as <-. cbn. lia.
  - destruct (tick_cases h s s' He) as (c & Hc & [[_ ->] | [_ ->]]); cbn.
    + lia.
    + unfold timer_consistent in Ht.
      destruct (timerOn s) as [k |];
        [| rewrite Ht, lookup_empty in Hc; discriminate].
      destruct Ht as (_ & c0 & Hi & _ & Hcb & Hcs).
      rewrite Hi in Hc. apply lookup_singleton_Some in Hc as [_ <-].
      unfold refill, in_bounds in *. destruct (breakOnVar c0); lia.
  - now injection He as <-.
Qed.

Lemma upper_run (evs : list Event) (s s' : State) :
  forallb button_event evs = true → Inv s → displayTime s ≤ 3600 →
  run evs s = Some s' → displayTime s' ≤ 3600.
Proof.
  revert s. induction evs as [| e evs IH]; intros s Hb HI Hd Hr; cbn in *.
  - now injection Hr as <-.
  - apply andb_true_iff in Hb as [He Hevs].
    destruct (exec e s) as [s1 |] eqn:E1; [| discriminate].
    apply (IH s1); [exact Hevs | | | exact Hr].
    + now apply (Inv_exec e s).
    + now apply (upper_exec e s).
Qed.

Lemma reachable_upper (s : State) : reachable s → displayTime s ≤ 3600.
Proof.
  intros (evs & Hb & Hr).
  apply (upper_run evs initial); [exact Hb | apply Inv_initial | cbn; lia | exact Hr].
Qed.

(** X9.  In every reachable state [displayTime] is at most 3600, the
    sixty minutes the longest length allows. *)
Theorem displayTime_at_most_an_hour (s : State) :
  reachable s → displayTime s ≤ 3600.
Proof. apply reachable_upper. Qed.

(** The session length raised to 60 shows the whole hour. *)
Lemma displayTime_at_most_an_hour_witness :
  ∃ s, run (repeat (Adjust "session" 1) 35) initial = Some s ∧
       displayTime s = 3600 ∧ displayTime s ≤ 3600.
Proof.
  destruct (run (repeat (Adjust "session" 1) 35) initial) as [s |] eqn:Hrun;
    [| vm_compute in Hrun; discriminate Hrun].
  assert (Hr : reachable s) by (eexists; split; [| exact Hrun]; reflexivity).
  exists s. repeat split; [| now apply displayTime_at_most_an_hour].
  vm_compute in Hrun. now injection Hrun as <-.
Defined.

Lemma two_digits_below_100 (n : Z) :
  0 ≤ n < 100 →
  FormatSpec.two_digits n
  = String (Js.digit (Z.to_N n / 10)) (String (Js.digit (Z.to_N n)) "").
Proof.
  intros Hn. unfold FormatSpec.two_digits.
  destruct (Z.ltb_spec n 10) as [Hlt | Hge].
  - rewrite toString_one_digit by lia.
    rewrite N.div_small by lia. reflexivity.
  - apply toString_two_digits; lia.
Qed.

Lemma timeFormat_mm_ss (t : Z) :
  0 ≤ t < 6000 → timeFormat t = FormatSpec.mm_ss t.
Proof.
  intros H. unfold timeFormat, FormatSpec.mm_ss.
  rewrite Z.rem_mod_nonneg by lia.
  pose proof (Z.mod_pos_bound t 60).
  assert (0 ≤ t `div` 60 < 100)
    by (split; [apply Z.div_pos; lia | apply Z.div_lt_upper_bound; lia]).
  rewrite !padStart_two_digits by lia.
  rewrite !two_digits_below_100 by lia. reflexivity.
Qed.

(** X10.  In every reachable state the text of the time display has
    exactly five characters, two digits on each side of the colon. *)
Theorem time_left_has_five_characters (s : State) :
  reachable s →
  time_left (render s) = FormatSpec.mm_ss (displayTime s) ∧
  String.length (time_left (render s)) = 5%nat.
Proof.
  intros Hr. destruct (reachable_Inv s Hr) as [_ _ Hd _ _].
  pose proof (reachable_upper s Hr) as Hu.
  cbn [render time_left]. rewrite timeFormat_mm_ss by lia. now split.
Qed.

Lemma time_left_has_five_characters_witness :
  String.length (time_left (render (startTimer initial))) = 5%nat.
Proof.
  apply time_left_has_five_characters. exists [StartStop]. split; reflexivity.
Defined.

(** X11.  The flash class of the time display is off whenever a phase
    begins: after a rollover in a reachable state, after a click on
    [reset], and after a length button changed the session length. *)
Theorem no_flash_when_a_phase_begins (s : State) :
  reachable s →
  (∀ h s', tick h s = Some s' → displayTime s = 0 →
           getTimerClassName s' = "") ∧
  getTimerClassName (reset s) = "" ∧
  (∀ amount, amount = 1 ∨ amount = -1 → 1 < sessionLength s < 60 →
             getTimerClassName (handleIncrementDecrement "session" amount s)
             = "").
Proof.
  intros Hr. split; [| split].
  - intros h s' Ht Hz.
    destruct (tick_cases h s s' Ht) as (c & Hc & [[Hnz _] | [_ ->]]);
      [contradiction |].
    destruct (reachable_live h s c Hr Hc) as (_ & _ & _ & Hcb & Hcs).
    unfold getTimerClassName. cbn.
    destruct (Z.ltb_spec (refill c) 60) as [Hlt | _]; [| reflexivity].
    unfold refill, in_bounds in *. destruct (breakOnVar c); lia.
  - reflexivity.
  - intros amount Ha Hl. rewrite adjust_session_eq, guard_accepts by exact Hl.
    unfold getTimerClassName. cbn.
    destruct (Z.ltb_spec ((sessionLength s + amount) * 60) 60); [lia | reflexivity].
Qed.

Lemma no_flash_when_a_phase_begins_witness :
  getTimerClassName (handleIncrementDecrement "session" (-1) initial) = "".
Proof.
  assert (Hr : reachable initial) by (exists []; split; reflexivity).
  destruct (no_flash_when_a_phase_begins initial Hr) as (_ & _ & Hadj).
  apply Hadj; [now right | cbn; lia].
Defined.

(** X12.  After a click on [reset], from any state, the page shows
    the lengths 5 and 25, the label Session, the time 25:00 without
    the flash class and the play icon; the dark mode icon is the one
    it was. *)
Theorem page_after_reset (s : State) :
  render (reset s)
  = mkView 5 25 "Session" "timedisplay  " "25:00" "fa-solid fa-play"
           (dark_mode_icon (render s)).
Proof. reflexivity. Qed.

(** ** [timeFormat] beyond the countdown *)

Lemma digit_inj (a b : N) :
  Js.digit a = Js.digit b → (a mod 10 = b mod 10)%N.
Proof.
  unfold Js.digit. intros H. apply (f_equal N_of_ascii) in H.
  pose proof (N.mod_lt a 10) as Ha. pose proof (N.mod_lt b 10) as Hb.
  rewrite !N_ascii_embedding in H by lia. lia.
Qed.

(** A number below 100 is given by its two digits. *)
Lemma two_digits_inj (a b : N) :
  (a < 100)%N → (b < 100)%N →
  Js.digit (a / 10) = Js.digit (b / 10) → Js.digit a = Js.digit b → a = b.
Proof.
  intros Ha Hb Ht Hu. apply digit_inj in Ht, Hu.
  assert (a / 10 < 10)%N by (apply N.Div0.div_lt_upper_bound; lia).
  assert (b / 10 < 10)%N by (apply N.Div0.div_lt_upper_bound; lia).
  rewrite !N.mod_small in Ht by assumption.
  rewrite (N.div_mod' a 10), (N.div_mod' b 10). lia.
Qed.

(** X13.  Below 6000 seconds different times are shown as different
    texts: the minutes and seconds can be read back from the five
    characters. *)
Theorem timeFormat_injective (a b : Z) :
  0 ≤ a < 6000 → 0 ≤ b < 6000 → timeFormat a = timeFormat b → a = b.
Proof.
  intros Ha Hb H. rewrite !timeFormat_mm_ss in H by assumption.
  unfold FormatSpec.mm_ss in H.
  injection H as Hm1 Hm0 Hs1 Hs0.
  assert (Hq : ∀ t, 0 ≤ t < 6000 → 0 ≤ t `div` 60 < 100)
    by (intros t Ht; split;
        [apply Z.div_pos; lia | apply Z.div_lt_upper_bound; lia]).
  pose proof (Hq a Ha). pose proof (Hq b Hb).
  pose proof (Z.mod_pos_bound a 60). pose proof (Z.mod_pos_bound b 60).
  assert (Hm : Z.to_N (a `div` 60) = Z.to_N (b `div` 60))
    by (apply two_digits_inj; auto with lia).
  assert (Hs : Z.to_N (a `mod` 60) = Z.to_N (b `mod` 60))
    by (apply two_digits_inj; auto with lia).
  apply Z2N.inj in Hm, Hs; try lia.
  rewrite (Z.div_mod a 60), (Z.div_mod b 60) by lia. lia.
Qed.

Lemma timeFormat_injective_witness : 754 = 12 * 60 + 34.
Proof.
  apply (timeFormat_injective 754 (12 * 60 + 34)); [lia | lia | reflexivity].
Defined.

Lemma length_digits_succ (fuel : nat) (n : N) (acc : string) :
  (S (String.length acc) ≤ String.length (Js.digits (S fuel) n acc))%nat.
Proof.
  cbn [Js.digits]. destruct (n / 10 =? 0)%N; [cbn; lia |].
  etransitivity; [| apply length_digits]. cbn. lia.
Qed.

Lemma toString_three_digits (z : Z) :
  100 ≤ z → (3 ≤ String.length (Js.toString z))%nat.
Proof.
  intros H. rewrite toString_nonneg by lia.
  assert (Hsize : (2 ≤ N.size_nat (Z.to_N z))%nat).
  { destruct (Z.to_N z) as [| [p | p |]] eqn:E; try lia.
    - destruct p; cbn; lia.
    - destruct p; cbn; lia. }
  destruct (N.size_nat (Z.to_N z)) as [| [| k]]; try lia.
  rewrite digits_next by lia.
  rewrite digits_next
    by (apply N.div_le_lower_bound; lia).
  etransitivity; [| apply length_digits_succ]. cbn. lia.
Qed.

Lemma length_append (a b : string) :
  String.length (a +:+ b) = (String.length a + String.length b)%nat.
Proof.
  induction a as [| c a IH]; [reflexivity |].
  change (String c a +:+ b) with (String c (a +:+ b)).
  cbn [String.length]. now rewrite IH.
Qed.

(** X14.  For a time that is at least 0 the text has five characters
    exactly when the time is below 6000 seconds; from 100 minutes on
    the minutes are written in full and the text is longer. *)
Theorem timeFormat_length (t : Z) :
  0 ≤ t →
  (String.length (timeFormat t) = 5%nat ↔ t < 6000) ∧
  (6000 ≤ t → (6 ≤ String.length (timeFormat t))%nat).
Proof.
  intros Ht.
  assert (Hlong : 6000 ≤ t → (6 ≤ String.length (timeFormat t))%nat).
  { intros H. unfold timeFormat.
    rewrite Z.rem_mod_nonneg by lia.
    pose proof (Z.mod_pos_bound t 60).
    assert (100 ≤ t `div` 60) by (apply Z.div_le_lower_bound; lia).
    rewrite (padStart_two_digits (t `mod` 60)) by lia.
    rewrite two_digits_below_100 by lia.
    assert (Hpad : Js.padStart 2 "0" (Js.toString (t `div` 60))
                   = Js.toString (t `div` 60)).
    { rewrite padStart_two_digits by lia. unfold FormatSpec.two_digits.
      destruct (Z.ltb_spec (t `div` 60) 10); [lia | reflexivity]. }
    rewrite Hpad, !length_append.
    pose proof (toString_three_digits (t `div` 60)). cbn. lia. }
  split; [| exact Hlong].
  split.
  - intros H5. destruct (Z.lt_ge_cases t 6000) as [| Hge]; [assumption |].
    apply Hlong in Hge. lia.
  - intros Hlt. now rewrite timeFormat_mm_ss by lia.
Qed.

Lemma timeFormat_length_witness :
  String.length (timeFormat 3600) = 5%nat ∧
  (6 ≤ String.length (timeFormat 6000))%nat.
Proof.
  split.
  - destruct (timeFormat_length 3600) as [H5 _]; [lia |]. apply H5. lia.
  - destruct (timeFormat_length 6000) as [_ H6]; [lia |]. apply H6. lia.
Defined.

(** X15.  A negative time is neither refused nor clamped: the minutes
    are rounded down, so the text begins with a minus sign. *)
Theorem timeFormat_negative (t : Z) :
  t < 0 → ∃ rest, timeFormat t = String "-" rest.
Proof.
  intros Ht. unfold timeFormat.
  assert (Hq : t `div` 60 < 0) by (apply Z.div_lt_upper_bound; lia).
  unfold Js.toString at 1.
  destruct (Z.ltb_spec (t `div` 60) 0) as [_ | Hge]; [| lia].
  set (body := Js.digits _ _ _).
  assert (Hbody : (1 ≤ String.length body)%nat).
  { subst body. etransitivity; [| apply length_digits_succ]. cbn. lia. }
  unfold Js.padStart. cbn [String.length].
  destruct (Nat.leb_spec 2 (S (String.length body))); [| lia].
  cbn. eauto.
Qed.

Lemma timeFormat_negative_witness :
  ∃ rest, timeFormat (-5) = String "-" rest.
Proof. apply timeFormat_negative. lia. Defined.

(** ** Dark mode *)

Lemma exec_darkMode (e : Event) (s s' : State) :
  exec e s = Some s' →
  darkMode s' = if is_toggle e then negb (darkMode s) else darkMode s.
Proof.
  intros He. destruct e; cbn [exec is_toggle] in *.
  - injection He as <-. now destruct (adjust_frame type amount s) as (_ & -> & _).
  - injection He as <-. unfold startTimer. now destruct (truthy (timerOn s)).
  - now injection He as <-.
  - now destruct (tick_cases h s s' He) as (c & _ & [[_ ->] | [_ ->]]).
  - now injection He as <-.
Qed.

(** X16.  Dark mode is on after a sequence of events exactly when the
    number of clicks on its button is odd (starting from off): no
    other event, not even a click on [reset], changes it. *)
Theorem dark_mode_counts_clicks (evs : list Event) (s s' : State) :
  run evs s = Some s' →
  darkMode s' = xorb (darkMode s) (Nat.odd (toggles evs)).
Proof.
  revert s. induction evs as [| e evs IH]; intros s Hr; cbn [run] in Hr.
  - injection Hr as <-. cbn. now rewrite xorb_false_r.
  - destruct (exec e s) as [s1 |] eqn:E1; [| discriminate].
    rewrite (IH s1 Hr), (exec_darkMode e s s1 E1).
    unfold toggles. rewrite filter_cons.
    destruct (is_toggle e); cbn [decide_rel]; [| reflexivity].
    destruct (decide (true = true)) as [_ | Hne]; [| congruence].
    cbn [length]. rewrite Nat.odd_succ, <- Nat.negb_odd.
    now destruct (darkMode s), (Nat.odd _).
Qed.

Lemma dark_mode_counts_clicks_witness :
  darkMode (toggleDarkMode (reset (toggleDarkMode (toggleDarkMode initial))))
  = true.
Proof.
  apply (dark_mode_counts_clicks
           [ToggleDarkMode; ToggleDarkMode; Reset; ToggleDarkMode] initial).
  reflexivity.
Defined.

Lemma darkModeEffect_twice (a b : bool) (classes : gset string) :
  darkModeEffect a (darkModeEffect b classes) = darkModeEffect a classes.
Proof.
  unfold darkModeEffect. generalize ("dark-mode" : string). intros d.
  apply set_eq. intros x.
  destruct (decide (x = d)); destruct a, b; set_unfold; tauto.
Qed.

Lemma page_exec_classes (classes : gset string) (e : Event) (p p' : Page) :
  classList p = darkModeEffect (darkMode (component p)) classes →
  page_exec e p = Some p' →
  classList p' = darkModeEffect (darkMode (component p')) classes ∧
  exec e (component p) = Some (component p').
Proof.
  intros Hp He. unfold page_exec in He.
  destruct (exec e (component p)) as [s' |]; [| discriminate].
  injection He as <-. cbn. split; [| reflexivity].
  destruct (Bool.eqb_spec (darkMode s') (darkMode (component p))) as [-> | _].
  - exact Hp.
  - rewrite Hp. apply darkModeEffect_twice.
Qed.

Lemma page_run_classes (classes : gset string) (evs : list Event) (p p' : Page) :
  classList p = darkModeEffect (darkMode (component p)) classes →
  page_run evs p = Some p' →
  classList p' = darkModeEffect (darkMode (component p')) classes ∧
  run evs (component p) = Some (component p').
Proof.
  revert p. induction evs as [| e evs IH]; intros p Hp Hr; cbn in *.
  - injection Hr as <-. now split.
  - destruct (page_exec e p) as [p1 |] eqn:E1; [| discriminate].
    destruct (page_exec_classes classes e p p1 Hp E1) as [Hp1 ->].
    now apply IH.
Qed.

(** X17.  Whatever classes the document element has when the
    component mounts and whatever happens afterwards, the element
    carries the class dark-mode exactly when [darkMode] is true, and
    every other class is there exactly when it was there at the
    mount; the component goes through the same states as without the
    document. *)
Theorem dark_mode_class_follows_state
    (classes : gset string) (evs : list Event) (p : Page) :
  page_run evs (mount classes) = Some p →
  ("dark-mode" ∈ classList p ↔ darkMode (component p) = true) ∧
  (∀ c, c ≠ "dark-mode" → c ∈ classList p ↔ c ∈ classes) ∧
  run evs initial = Some (component p).
Proof.
  intros Hr.
  destruct (page_run_classes classes evs (mount classes) p) as [Hc Hrun];
    [| exact Hr |].
  - reflexivity.
  - rewrite Hc. unfold darkModeEffect.
    split; [| split; [| exact Hrun]];
      clear Hc Hr Hrun; generalize ("dark-mode" : string); intros d.
    + destruct (darkMode (component p)); set_unfold; intuition congruence.
    + intros c Hne. destruct (darkMode (component p)); set_unfold; tauto.
Qed.

Lemma dark_mode_class_follows_state_witness :
  "dark-mode" ∈ darkModeEffect true (darkModeEffect false {["timer-page"]})
  ↔ true = true.
Proof.
  apply (dark_mode_class_follows_state {["timer-page"]} [ToggleDarkMode]
           (mkPage (toggleDarkMode initial)
              (darkModeEffect true (darkModeEffect false {["timer-page"]})))).
  reflexivity.
Defined.

(** ** From the start button to the first rollover *)

(** X18.  In a reachable state with the timer off, a click on
    [start_stop] followed by [displayTime + 1] runs of the new
    callback, with nothing else in between, plays the audio once,
    changes the phase, and sets [displayTime] to the length of the new
    phase as it was at the click, times 60. *)
Theorem start_then_run_to_rollover (s : State) :
  reachable s → timerOn s = None →
  ∃ s', ticks (S (Z.to_nat (displayTime s))) (nextHandle s) (startTimer s)
        = Some s' ∧
        plays (audio s') = S (plays (audio s)) ∧
        breakOn s' = negb (breakOn s) ∧
        displayTime s'
        = (if breakOn s then sessionLength s else breakLength s) * 60 ∧
        timer_label (render s') = (if breakOn s then "Session" else "Break").
Proof.
  intros Hr Hoff. destruct (reachable_Inv s Hr) as [_ Ht Hd _ _].
  unfold timer_consistent in Ht. rewrite Hoff in Ht.
  assert (Hoff' : truthy (timerOn s) = false) by now rewrite Hoff.
  destruct (captured_start s Ht Hoff') as (c & Hi & Hb & Hl & Hv).
  assert (Hc : intervals (startTimer s) !! nextHandle s = Some c)
    by (rewrite Hi; apply lookup_singleton_eq).
  assert (Hd1 : displayTime (startTimer s) = displayTime s)
    by (unfold startTimer; now rewrite Hoff').
  assert (Hb1 : breakOn (startTimer s) = breakOn s)
    by (unfold startTimer; now rewrite Hoff').
  assert (Ha1 : audio (startTimer s) = audio s)
    by (unfold startTimer; now rewrite Hoff').
  eexists. split.
  - apply (ticks_rollover _ _ _ c Hc). rewrite Hd1. now rewrite Z2Nat.id.
  - cbn. unfold refill. rewrite Ha1, Hv, Hb1, Hb, Hl.
    repeat split. now destruct (breakOn s).
Qed.

(** A session of one minute: 24 decrements, the start, 61 runs. *)
Lemma start_then_run_to_rollover_witness :
  ∃ s s', run (repeat (Adjust "session" (-1)) 24) initial = Some s ∧
          ticks 61 1 (startTimer s) = Some s' ∧
          plays (audio s') = 1%nat ∧ displayTime s' = 5 * 60.
Proof.
  destruct (run (repeat (Adjust "session" (-1)) 24) initial) as [s |] eqn:Hrun;
    [| vm_compute in Hrun; discriminate Hrun].
  assert (Hr : reachable s) by (eexists; split; [| exact Hrun]; reflexivity).
  assert (Hs : s = setDisplayTime 60 (setSessionLength 1 initial))
    by (vm_compute in Hrun; now injection Hrun as <-).
  assert (Hoff : timerOn s = None) by now rewrite Hs.
  destruct (start_then_run_to_rollover s Hr Hoff) as (s' & Ht & Hp & _ & Hd & _).
  rewrite Hs in Ht, Hp, Hd.
  exists s, s'. rewrite Hs. repeat split; assumption.
Defined.
